(** * The [okta_group_name_prefix] rule of tflint-ruleset-okta

    A shallow embedding of [rules/okta_group_naming_convention.go] and the
    properties of its [Check] method.

    The rule is a plugin of the tflint host.  Everything the host provides
    ([tflint.Runner], the logger, the HCL data types) is kept abstract: the
    host is a type class [Runner] over an arbitrary host state, and every
    theorem holds for every instance of it.  The rule's methods run in a
    small monad [M] that threads the world (the receiver struct [*r] and
    the host state) and collects the calls made to the host, in order. *)

From Stdlib Require Import String ZArith List Bool Lia.
From stdpp Require Import list strings gmap.

Local Open Scope string_scope.

(** ** Package [strings] and [fmt] *)

(** [strings.HasPrefix]:
    [return len(s) >= len(prefix) && s[:len(prefix)] == prefix].
    Go strings are byte sequences, as Rocq's [string] is. *)
Definition HasPrefix (s prefix : string) : bool :=
  (String.length prefix <=? String.length s)%nat
  && String.eqb (substring 0 (String.length prefix) s) prefix.

(** [fmt.Sprintf(format, arg)] for a format with one [%s] verb, given as the
    text before and after the verb. *)
Definition Sprintf_s (before after arg : string) : string :=
  before +:+ arg +:+ after.

(** ** Package [hcl]: source positions *)

Module hcl.

Record Pos := mkPos { Line : Z; Column : Z; Byte : Z }.

Record Range := mkRange { Filename : string; Start : Pos; End_ : Pos }.

End hcl.

(** ** Package [hclext]: schemas and body contents *)

Module hclext.

Record AttributeSchema := mkAttributeSchema { Name : string }.

Record BodySchema := mkBodySchema { SchemaAttributes : list AttributeSchema }.

Section Content.
(** [hcl.Expression] is an interface of the host: an opaque handle. *)
Context {Expression : Type}.

Record Attribute := mkAttribute {
  AttrName : string;
  Expr : Expression;
  Range : hcl.Range;
  NameRange : hcl.Range
}.

(** [BodyContent] and [Block] refer to each other; [Attributes] is a Go
    map from attribute names. *)
Inductive BodyContent := mkBodyContent {
  Attributes : gmap string Attribute;
  Blocks : list Block
}
with Block := mkBlock {
  BlockType : string;
  Labels : list string;
  Body : BodyContent;
  DefRange : hcl.Range
}.
End Content.

Arguments Attribute : clear implicits.
Arguments BodyContent : clear implicits.
Arguments Block : clear implicits.

End hclext.

(** ** Package [tflint]: severities *)

Module tflint.

Inductive Severity := ERROR | WARNING | NOTICE.

End tflint.

(** ** Package [rules]: the rule struct *)

(** [tflint.DefaultRule], the embedded struct: it has no fields. *)
Inductive DefaultRule := mkDefaultRule.

(** [type OktaGroupNamePrefixRule struct]. *)
Record OktaGroupNamePrefixRule := mkRule {
  embedded : DefaultRule;
  resourceType : string;
  attributeName : string;
  prefix : string
}.

(** [NewOktaGroupNamePrefixRule]: the struct the returned pointer refers to. *)
Definition NewOktaGroupNamePrefixRule : OktaGroupNamePrefixRule :=
  {| embedded := mkDefaultRule;
     resourceType := "okta_group";
     attributeName := "name";
     prefix := "terraform-" |}.

(** ** The host: [tflint.Runner] *)

(** What [runner.EvaluateExpr(expr, callback, nil)] does with a callback of
    type [func(string) error], by the contract of the plugin SDK: either
    the expression has a known string value, the callback is called once
    with it and its result is the result of [EvaluateExpr]; or the value
    is not available (unknown, null, sensitive) and the host returns [nil]
    without calling the callback; or the evaluation fails and the host
    returns the error without calling the callback. *)
Inductive EvalOutcome {error : Type} :=
| Resolved (value : string)
| Skipped
| EvalFailed (err : error).
Arguments EvalOutcome : clear implicits.

(** The three host capabilities the rule calls, as functions of the host
    state [H].  A Go [error] result is [option error], [None] being [nil];
    [GetResourceContent] returns either an error or the content. *)
Class Runner (Expression error H : Type) := {
  GetResourceContent :
    string -> hclext.BodySchema -> H -> (error + hclext.BodyContent Expression) * H;
  EvaluateExpr : Expression -> H -> EvalOutcome error * H;
  EmitIssue :
    OktaGroupNamePrefixRule -> string -> hcl.Range -> H -> option error * H
}.

(** ** The world and the monad of the rule's methods *)

Section Rule.
Context {Expression error H : Type} `{!Runner Expression error H}.

(** The calls that leave the rule, in the order they are made. *)
Inductive Event :=
| EvDebug (msg : string)
| EvGetResourceContent (name : string) (schema : hclext.BodySchema)
| EvEvaluateExpr (expr : Expression)
| EvEmitIssue (rule : OktaGroupNamePrefixRule) (message : string) (range : hcl.Range).

(** The receiver [r] points to [self]; the runner's state is [host]. *)
Record World := mkWorld { self : OktaGroupNamePrefixRule; host : H }.

Definition M (A : Type) : Type := World -> A * World * list Event.

Definition ret {A} (a : A) : M A := fun w => (a, w, []).

Definition bind {A B} (m : M A) (k : A -> M B) : M B :=
  fun w =>
    let '(a, w1, t1) := m w in
    let '(b, w2, t2) := k a w1 in
    (b, w2, (t1 ++ t2)%list).

(** The three parts of the outcome of a run. *)
Definition result_of {A} (o : A * World * list Event) : A := fst (fst o).
Definition world_of {A} (o : A * World * list Event) : World := snd (fst o).
Definition events_of {A} (o : A * World * list Event) : list Event := snd o.

(** [r.f]: a read of a field of the receiver. *)
Definition field {A} (f : OktaGroupNamePrefixRule -> A) : M A :=
  fun w => (f (self w), w, []).

(** [logger.Debug(msg)]. *)
Definition Debug (msg : string) : M unit :=
  fun w => (tt, w, [EvDebug msg]).

(** [runner.GetResourceContent(name, schema, nil)]. *)
Definition runner_GetResourceContent (name : string) (schema : hclext.BodySchema)
  : M (error + hclext.BodyContent Expression) :=
  fun w =>
    let '(res, h) := GetResourceContent name schema (host w) in
    (res, mkWorld (self w) h, [EvGetResourceContent name schema]).

(** [runner.EmitIssue(r, message, rng)]. *)
Definition runner_EmitIssue (message : string) (rng : hcl.Range) : M (option error) :=
  fun w =>
    let '(res, h) := EmitIssue (self w) message rng (host w) in
    (res, mkWorld (self w) h, [EvEmitIssue (self w) message rng]).

(** [runner.EvaluateExpr(expr, callback, nil)]. *)
Definition runner_EvaluateExpr (expr : Expression) (callback : string -> M (option error))
  : M (option error) :=
  fun w =>
    let '(out, h) := EvaluateExpr expr (host w) in
    let w1 := mkWorld (self w) h in
    match out with
    | Resolved value =>
        let '(res, w2, t) := callback value w1 in
        (res, w2, EvEvaluateExpr expr :: t)
    | Skipped => (None, w1, [EvEvaluateExpr expr])
    | EvalFailed err => (Some err, w1, [EvEvaluateExpr expr])
    end.

End Rule.

Arguments Event : clear implicits.
Arguments World : clear implicits.
Arguments M : clear implicits.

Notation "'let*' x ':=' m 'in' k" := (bind m (fun x => k))
  (at level 10, x name, m at level 100, k at level 200).
Notation "'do' m 'then' k" := (bind m (fun _ => k))
  (at level 10, m at level 100, k at level 200).

(** ** The methods of [*OktaGroupNamePrefixRule] *)

Section Methods.
Context {Expression error H : Type} `{!Runner Expression error H}.

Local Abbreviation M := (M Expression H).

(** [func (r *OktaGroupNamePrefixRule) Name() string]. *)
Definition Name : M string := ret "okta_group_name_prefix".

(** [func (r *OktaGroupNamePrefixRule) Enabled() bool]. *)
Definition Enabled : M bool := ret true.

(** [func (r *OktaGroupNamePrefixRule) Severity() tflint.Severity]. *)
Definition Severity : M tflint.Severity := ret tflint.ERROR.

(** The closure passed to [EvaluateExpr]; it captures [r] and
    [attribute].  Its assignment to the [err] of the enclosing function is
    never read there, so only the returned error is kept. *)
Definition callback (attribute : hclext.Attribute Expression) (groupName : string)
  : M (option error) :=
  let* p := field prefix in
  if negb (HasPrefix groupName p) then
    let* p' := field prefix in
    let issueMsg := Sprintf_s "Okta group name must start with '" "'" p' in
    let* err := runner_EmitIssue issueMsg (hclext.Range attribute) in
    match err with
    | Some e => ret (Some e)
    | None => ret None
    end
  else ret None.

(** The body of the [for] loop for one block: [None] stands for both
    [continue] and reaching the end of the body, [Some e] for
    [return err]. *)
Definition visit (resource : hclext.Block Expression) : M (option error) :=
  let* an := field attributeName in
  match hclext.Attributes (hclext.Body resource) !! an with
  | None => ret None
  | Some attribute =>
      let* err := runner_EvaluateExpr (hclext.Expr attribute) (callback attribute) in
      match err with
      | Some e => ret (Some e)
      | None => ret None
      end
  end.

(** [for _, resource := range resources.Blocks { ... }; return nil]. *)
Fixpoint range_Blocks (blocks : list (hclext.Block Expression)) : M (option error) :=
  match blocks with
  | [] => ret None
  | resource :: rest =>
      let* err := visit resource in
      match err with
      | Some e => ret (Some e)
      | None => range_Blocks rest
      end
  end.

(** [func (r *OktaGroupNamePrefixRule) Check(runner tflint.Runner) error]. *)
Definition Check : M (option error) :=
  let* name := Name in
  do Debug (Sprintf_s "checking " " rule" name) then
  let* rt := field resourceType in
  let* an := field attributeName in
  let* res := runner_GetResourceContent rt
                (hclext.mkBodySchema [hclext.mkAttributeSchema an]) in
  match res with
  | inl err => ret (Some err)
  | inr resources => range_Blocks (hclext.Blocks resources)
  end.

(** The message [Check] builds for an issue of the rule [r]. *)
Definition issue_message (r : OktaGroupNamePrefixRule) : string :=
  "Okta group name must start with '" +:+ prefix r +:+ "'".

(** The schema [Check] sends with its query: the one attribute of [r]. *)
Definition query_schema (r : OktaGroupNamePrefixRule) : hclext.BodySchema :=
  hclext.mkBodySchema [hclext.mkAttributeSchema (attributeName r)].

(** The two events every run of [Check] starts with: the debug line and
    the resource query. *)
Definition opening (r : OktaGroupNamePrefixRule) : list (Event Expression) :=
  [EvDebug "checking okta_group_name_prefix rule";
   EvGetResourceContent (resourceType r) (query_schema r)].

(** The host answers the same whatever its state: its responses are
    fixed. *)
Definition fixed_responses : Prop :=
  (forall name schema (h h' : H),
      fst (GetResourceContent name schema h) = fst (GetResourceContent name schema h'))
  /\ (forall (e : Expression) (h h' : H),
      fst (EvaluateExpr e h) = fst (EvaluateExpr e h'))
  /\ (forall r message rng (h h' : H),
      fst (EmitIssue r message rng h) = fst (EmitIssue r message rng h')).

(** The two ways the host can fail while the block with [attribute] is
    processed from the host state [h]: the evaluation fails, or the value
    lacks the prefix and the emission fails.  The indices are the error,
    the host state left behind and the calls made. *)
Inductive host_failure (r : OktaGroupNamePrefixRule)
  (attribute : hclext.Attribute Expression) (h : H)
  : error -> H -> list (Event Expression) -> Prop :=
| evaluation_fails e h1 :
    EvaluateExpr (hclext.Expr attribute) h = (EvalFailed e, h1) ->
    host_failure r attribute h e h1 [EvEvaluateExpr (hclext.Expr attribute)]
| emission_fails value h1 e h2 :
    EvaluateExpr (hclext.Expr attribute) h = (Resolved value, h1) ->
    HasPrefix value (prefix r) = false ->
    EmitIssue r (issue_message r) (hclext.Range attribute) h1 = (Some e, h2) ->
    host_failure r attribute h e h2
      [EvEvaluateExpr (hclext.Expr attribute);
       EvEmitIssue r (issue_message r) (hclext.Range attribute)].

(** [n] invocations of [Check] in succession; the results and events of
    all of them are collected. *)
Fixpoint Check_times (n : nat) : M (list (option error)) :=
  match n with
  | O => ret []
  | S n' =>
      let* res := Check in
      let* more := Check_times n' in
      ret (res :: more)
  end.

(** The issues handed to the host among the events of a run. *)
Definition emitted (t : list (Event Expression))
  : list (OktaGroupNamePrefixRule * string * hcl.Range) :=
  omap (fun ev =>
          match ev with
          | EvEmitIssue rule message rng => Some (rule, message, rng)
          | _ => None
          end) t.

(** Every issue among the events [t] is emitted for the rule [r]. *)
Definition emitted_by (r : OktaGroupNamePrefixRule) (t : list (Event Expression)) : Prop :=
  Forall (fun i => fst (fst i) = r) (emitted t).

(** The expressions handed to the host for evaluation. *)
Definition evaluated (t : list (Event Expression)) : list Expression :=
  omap (fun ev => match ev with EvEvaluateExpr e => Some e | _ => None end) t.

End Methods.

(** ** What a run can be compared with *)

Section Observations.
Context {Expression error H : Type} `{!Runner Expression error H}.

(** The resource queries among the events of a run. *)
Definition queries (t : list (Event Expression)) : list (string * hclext.BodySchema) :=
  omap (fun ev =>
          match ev with
          | EvGetResourceContent name schema => Some (name, schema)
          | _ => None
          end) t.

(** [resource.Body.Attributes[r.attributeName]]: the attribute of the rule
    [r] in a block, when the block sets it. *)
Definition named (r : OktaGroupNamePrefixRule) (resource : hclext.Block Expression)
  : option (hclext.Attribute Expression) :=
  hclext.Attributes (hclext.Body resource) !! attributeName r.

(** The expressions of the blocks that set the attribute, in the order of
    the blocks. *)
Definition expressions_of (r : OktaGroupNamePrefixRule)
  (blocks : list (hclext.Block Expression)) : list Expression :=
  omap (fun resource => hclext.Expr <$> named r resource) blocks.

(** The issue a block calls for when expressions have the values [value_of]:
    the attribute is set and its value is a string without the prefix. *)
Definition violation (r : OktaGroupNamePrefixRule)
  (value_of : Expression -> EvalOutcome error) (resource : hclext.Block Expression)
  : option (OktaGroupNamePrefixRule * string * hcl.Range) :=
  match named r resource with
  | Some attribute =>
      match value_of (hclext.Expr attribute) with
      | Resolved value =>
          if HasPrefix value (prefix r) then None
          else Some (r, issue_message r, hclext.Range attribute)
      | _ => None
      end
  | None => None
  end.

Definition violations (r : OktaGroupNamePrefixRule)
  (value_of : Expression -> EvalOutcome error) (blocks : list (hclext.Block Expression))
  : list (OktaGroupNamePrefixRule * string * hcl.Range) :=
  omap (violation r value_of) blocks.

(** What one block does, by the answers of the host. *)
Definition visit_outcome (resource : hclext.Block Expression) (w : World H)
  : option error * World H * list (Event Expression) :=
  match named (self w) resource with
  | None => (None, w, [])
  | Some attribute =>
      let seen := EvEvaluateExpr (hclext.Expr attribute) in
      let '(out, h1) := EvaluateExpr (hclext.Expr attribute) (host w) in
      match out with
      | Resolved value =>
          if HasPrefix value (prefix (self w)) then (None, mkWorld (self w) h1, [seen])
          else
            let '(res, h2) :=
              EmitIssue (self w) (issue_message (self w)) (hclext.Range attribute) h1 in
            (res, mkWorld (self w) h2,
             [seen; EvEmitIssue (self w) (issue_message (self w)) (hclext.Range attribute)])
      | Skipped => (None, mkWorld (self w) h1, [seen])
      | EvalFailed e => (Some e, mkWorld (self w) h1, [seen])
      end
  end.

End Observations.

(** ** A concrete host, for running the rule on examples *)

Module Mock.

(** Expressions: a string literal, a value unknown until apply time, and
    an expression whose evaluation fails. *)
Inductive expr := Lit (s : string) | Unknown | Broken.

(** What the host is set up to answer: the result of the resource query
    and whether it accepts diagnostics. *)
Record config := mkConfig {
  query : string + hclext.BodyContent expr;
  channel : option string
}.

(** The host state is the list of diagnostics recorded so far. *)
Definition state : Type := list (string * hcl.Range).

Definition runner (cfg : config) : Runner expr string state := {|
  GetResourceContent _ _ h := (query cfg, h);
  EvaluateExpr e h :=
    (match e with
     | Lit s => Resolved s
     | Unknown => Skipped
     | Broken => EvalFailed "cannot evaluate expression"
     end, h);
  EmitIssue _ message rng h :=
    match channel cfg with
    | Some e => (Some e, h)
    | None => (None, (h ++ [(message, rng)])%list)
    end
|}.

Definition at_line (n : Z) : hcl.Range :=
  hcl.mkRange "groups.tf" (hcl.mkPos n 3 0) (hcl.mkPos n 30 0).

(** The attribute [name = e] written on line [n]. *)
Definition name_is (e : expr) (n : Z) : hclext.Attribute expr :=
  hclext.mkAttribute "name" e (at_line n) (at_line n).

(** [resource okta_group label { name = e }], written on line [n]. *)
Definition group (label : string) (n : Z) (e : expr) : hclext.Block expr :=
  hclext.mkBlock "resource" ["okta_group"; label]
    (hclext.mkBodyContent {[ "name" := name_is e n ]} [])
    (at_line (n - 1)).

(** [resource okta_group label { }]: no [name] attribute. *)
Definition unnamed (label : string) (n : Z) : hclext.Block expr :=
  hclext.mkBlock "resource" ["okta_group"; label]
    (hclext.mkBodyContent ∅ []) (at_line (n - 1)).

Definition content (blocks : list (hclext.Block expr)) : hclext.BodyContent expr :=
  hclext.mkBodyContent ∅ blocks.

Definition g1 := group "g1" 2 (Lit "terraform-admins").
Definition g2 := group "g2" 6 (Lit "admins").
Definition g3 := unnamed "g3" 10.
Definition g4 := group "g4" 14 Broken.
Definition g5 := group "g5" 18 Unknown.
Definition g6 := group "g6" 22 (Lit "Terraform-ops").

Definition start : World state := mkWorld NewOktaGroupNamePrefixRule [].

Definition message : string := "Okta group name must start with 'terraform-'".

(** The world once [n] diagnostics for line 6 have been recorded. *)
Definition reported (n : nat) : World state :=
  mkWorld NewOktaGroupNamePrefixRule (replicate n (message, at_line 6)).

(** The events of the blocks [g1] and [g2]. *)
Definition seen_g1 : list (Event expr) := [EvEvaluateExpr (Lit "terraform-admins")].
Definition seen_g2 : list (Event expr) :=
  [EvEvaluateExpr (Lit "admins");
   EvEmitIssue NewOktaGroupNamePrefixRule message (at_line 6)].

(** Hosts: one that serves the given blocks and records diagnostics, one
    whose reporting channel is closed, one that rejects the query. *)
Definition serving (blocks : list (hclext.Block expr)) : config :=
  mkConfig (inr (content blocks)) None.
Definition closed (blocks : list (hclext.Block expr)) : config :=
  mkConfig (inr (content blocks)) (Some "reporting channel closed").
Definition rejecting : config := mkConfig (inl "unsupported schema") None.

(** A rule with the empty prefix. *)
Definition any_name : World state :=
  mkWorld (mkRule mkDefaultRule "okta_group" "name" "") [].

(** The value of an expression, as [runner] answers it. *)
Definition value_of (e : expr) : EvalOutcome string :=
  match e with
  | Lit s => Resolved s
  | Unknown => Skipped
  | Broken => EvalFailed "cannot evaluate expression"
  end.

(** [g2] with another label, on other lines and inside another block type:
    the same [name] attribute. *)
Definition g2_moved : hclext.Block expr :=
  hclext.mkBlock "data" ["okta_group"; "elsewhere"]
    (hclext.mkBodyContent {[ "name" := name_is (Lit "admins") 6 ]} [g1])
    (at_line 40).

End Mock.

(** * Properties *)

(** ** The scenarios of the specification, run on the example host *)

Example scenario_A :
  emitted (events_of (Check (Runner0 := Mock.runner (Mock.serving [Mock.g1])) Mock.start))
  = [].
Proof. reflexivity. Qed.

Example scenario_B :
  emitted (events_of (Check (Runner0 := Mock.runner (Mock.serving [Mock.g2])) Mock.start))
  = [(NewOktaGroupNamePrefixRule, "Okta group name must start with 'terraform-'",
      Mock.at_line 6)].
Proof. reflexivity. Qed.

Example scenario_C :
  Check (Runner0 := Mock.runner (Mock.serving [Mock.g3])) Mock.start
  = (None, Mock.start, opening NewOktaGroupNamePrefixRule).
Proof. reflexivity. Qed.

Example scenario_D :
  emitted (events_of
             (Check (Runner0 := Mock.runner (Mock.serving [Mock.g2; Mock.g1])) Mock.start))
  = [(NewOktaGroupNamePrefixRule, Mock.message, hclext.Range (Mock.name_is (Mock.Lit "admins") 6))].
Proof. reflexivity. Qed.

(** A value the host cannot know yet is evaluated and passed over. *)
Example unknown_value :
  Check (Runner0 := Mock.runner (Mock.serving [Mock.g5])) Mock.start
  = (None, Mock.start,
     (opening NewOktaGroupNamePrefixRule ++ [EvEvaluateExpr Mock.Unknown])%list).
Proof. reflexivity. Qed.

(** ** The prefix predicate *)

Example HasPrefix_case_sensitive : HasPrefix "Terraform-ops" "terraform-" = false.
Proof. reflexivity. Qed.

Example HasPrefix_shorter : HasPrefix "terra" "terraform-" = false.
Proof. reflexivity. Qed.

Example HasPrefix_equal : HasPrefix "terraform-" "terraform-" = true.
Proof. reflexivity. Qed.

Lemma substring_prefix_append (p t : string) :
  substring 0 (String.length p) (p +:+ t) = p.
Proof.
  induction p as [|c p IH]; simpl.
  - destruct t; reflexivity.
  - now rewrite IH.
Qed.

Lemma substring_prefix_split (n : nat) (s : string) :
  (n <= String.length s)%nat ->
  s = substring 0 n s +:+ substring n (String.length s - n) s.
Proof.
  revert s. induction n as [|n IH]; intros s Hn.
  - simpl. rewrite Nat.sub_0_r.
    assert (E : forall u, substring 0 (String.length u) u = u).
    { induction u as [|c u IHu]; simpl; [reflexivity | now rewrite IHu]. }
    rewrite E. destruct s; reflexivity.
  - destruct s as [|c s]; simpl in *; [lia|].
    change (String c s =
            String c (substring 0 n s +:+ substring n (String.length s - n) s)).
    f_equal. apply IH. lia.
Qed.

Lemma length_append_le (p t : string) :
  (String.length p <= String.length (p +:+ t))%nat.
Proof.
  induction p as [|c p IH].
  - apply Nat.le_0_l.
  - change (S (String.length p) <= S (String.length (p +:+ t)))%nat. lia.
Qed.

Lemma HasPrefix_true_iff (s p : string) :
  HasPrefix s p = true <-> exists t, s = p +:+ t.
Proof.
  unfold HasPrefix. rewrite andb_true_iff, Nat.leb_le, String.eqb_eq. split.
  - intros [Hlen Hsub].
    exists (substring (String.length p) (String.length s - String.length p) s).
    rewrite <- Hsub at 1. now apply substring_prefix_split.
  - intros [t ->]. split.
    + apply length_append_le.
    + apply substring_prefix_append.
Qed.

Lemma HasPrefix_empty (s : string) : HasPrefix s "" = true.
Proof. apply HasPrefix_true_iff. exists s. reflexivity. Qed.

(** ** One block *)

Section Loop.
Context {Expression error H : Type} `{!Runner Expression error H}.

Implicit Types (w : World H) (resource : hclext.Block Expression)
  (attribute : hclext.Attribute Expression) (t : list (Event Expression)).

Lemma visit_absent w resource :
  hclext.Attributes (hclext.Body resource) !! attributeName (self w) = None ->
  visit resource w = (None, w, []).
Proof.
  intros Hno. unfold visit, bind, field. now rewrite Hno.
Qed.

Lemma visit_skipped w resource attribute h1 :
  hclext.Attributes (hclext.Body resource) !! attributeName (self w) = Some attribute ->
  EvaluateExpr (hclext.Expr attribute) (host w) = (Skipped, h1) ->
  visit resource w = (None, mkWorld (self w) h1, [EvEvaluateExpr (hclext.Expr attribute)]).
Proof.
  intros Hat Hev. unfold visit, bind, field, runner_EvaluateExpr.
  rewrite Hat, Hev. reflexivity.
Qed.

Lemma visit_eval_failed w resource attribute e h1 :
  hclext.Attributes (hclext.Body resource) !! attributeName (self w) = Some attribute ->
  EvaluateExpr (hclext.Expr attribute) (host w) = (EvalFailed e, h1) ->
  visit resource w = (Some e, mkWorld (self w) h1, [EvEvaluateExpr (hclext.Expr attribute)]).
Proof.
  intros Hat Hev. unfold visit, bind, field, runner_EvaluateExpr.
  rewrite Hat, Hev. reflexivity.
Qed.

Lemma visit_compliant w resource attribute value h1 :
  hclext.Attributes (hclext.Body resource) !! attributeName (self w) = Some attribute ->
  EvaluateExpr (hclext.Expr attribute) (host w) = (Resolved value, h1) ->
  HasPrefix value (prefix (self w)) = true ->
  visit resource w = (None, mkWorld (self w) h1, [EvEvaluateExpr (hclext.Expr attribute)]).
Proof.
  intros Hat Hev Hpre. unfold visit, bind, field, runner_EvaluateExpr, callback.
  rewrite Hat, Hev. unfold bind, field. simpl. rewrite Hpre. reflexivity.
Qed.

Lemma visit_violating w resource attribute value h1 res h2 :
  hclext.Attributes (hclext.Body resource) !! attributeName (self w) = Some attribute ->
  EvaluateExpr (hclext.Expr attribute) (host w) = (Resolved value, h1) ->
  HasPrefix value (prefix (self w)) = false ->
  EmitIssue (self w) (issue_message (self w)) (hclext.Range attribute) h1 = (res, h2) ->
  visit resource w =
    (res, mkWorld (self w) h2,
     [EvEvaluateExpr (hclext.Expr attribute);
      EvEmitIssue (self w) (issue_message (self w)) (hclext.Range attribute)]).
Proof.
  intros Hat Hev Hpre Hem.
  unfold visit, bind, field, runner_EvaluateExpr, callback.
  rewrite Hat, Hev. unfold bind, field, runner_EmitIssue. simpl. rewrite Hpre. simpl.
  unfold issue_message, Sprintf_s in *. rewrite Hem.
  destruct res; reflexivity.
Qed.

End Loop.

(** ** The loop and the whole of [Check] *)

Section Whole.
Context {Expression error H : Type} `{!Runner Expression error H}.

Implicit Types (w : World H) (resource : hclext.Block Expression)
  (blocks : list (hclext.Block Expression))
  (attribute : hclext.Attribute Expression) (t : list (Event Expression)).

Lemma range_Blocks_cons resource rest w :
  range_Blocks (resource :: rest) w =
    let '(res, w1, t1) := visit resource w in
    match res with
    | Some e => (Some e, w1, t1)
    | None =>
        let '(res2, w2, t2) := range_Blocks rest w1 in (res2, w2, (t1 ++ t2)%list)
    end.
Proof.
  simpl. unfold bind at 1.
  destruct (visit resource w) as [[[e|] w1] t1]; [|reflexivity].
  unfold ret. now rewrite app_nil_r.
Qed.

Lemma range_Blocks_app blocks rest w :
  range_Blocks (blocks ++ rest) w =
    let '(res, w1, t1) := range_Blocks blocks w in
    match res with
    | Some e => (Some e, w1, t1)
    | None =>
        let '(res2, w2, t2) := range_Blocks rest w1 in (res2, w2, (t1 ++ t2)%list)
    end.
Proof.
  revert w. induction blocks as [|b bs IH]; intros w.
  - simpl. unfold ret. now destruct (range_Blocks rest w) as [[res2 w2] t2].
  - rewrite <- app_comm_cons, !range_Blocks_cons.
    destruct (visit b w) as [[[e|] w1] t1]; [reflexivity|].
    rewrite IH.
    destruct (range_Blocks bs w1) as [[[e|] w2] t2]; [reflexivity|].
    destruct (range_Blocks rest w2) as [[res3 w3] t3].
    now rewrite app_assoc.
Qed.

Lemma Check_query_failed w e h0 :
  GetResourceContent (resourceType (self w)) (query_schema (self w)) (host w)
    = (inl e, h0) ->
  Check w = (Some e, mkWorld (self w) h0, opening (self w)).
Proof.
  intros Hq. unfold Check, bind, Name, ret, Debug, field, runner_GetResourceContent.
  unfold query_schema in Hq. simpl. rewrite Hq. reflexivity.
Qed.

Lemma Check_query_ok w content h0 :
  GetResourceContent (resourceType (self w)) (query_schema (self w)) (host w)
    = (inr content, h0) ->
  Check w =
    let '(res, w1, t) := range_Blocks (hclext.Blocks content) (mkWorld (self w) h0) in
    (res, w1, (opening (self w) ++ t)%list).
Proof.
  intros Hq. unfold Check, bind, Name, ret, Debug, field, runner_GetResourceContent.
  unfold query_schema in Hq. simpl. rewrite Hq.
  now destruct (range_Blocks _ _) as [[res w1] t].
Qed.

(** [Check] at a block that is reached: the blocks before it were passed
    without an error. *)
Lemma Check_at_block w content h0 before resource after w1 t1 :
  GetResourceContent (resourceType (self w)) (query_schema (self w)) (host w)
    = (inr content, h0) ->
  hclext.Blocks content = (before ++ resource :: after)%list ->
  range_Blocks before (mkWorld (self w) h0) = (None, w1, t1) ->
  Check w =
    let '(res, w2, t2) := visit resource w1 in
    match res with
    | Some e => (Some e, w2, (opening (self w) ++ t1 ++ t2)%list)
    | None =>
        let '(res3, w3, t3) := range_Blocks after w2 in
        (res3, w3, (opening (self w) ++ t1 ++ t2 ++ t3)%list)
    end.
Proof.
  intros Hq Hb Hbefore. rewrite (Check_query_ok _ _ _ Hq), Hb.
  rewrite range_Blocks_app, Hbefore, range_Blocks_cons.
  destruct (visit resource w1) as [[[e|] w2] t2]; [reflexivity|].
  now destruct (range_Blocks after w2) as [[res3 w3] t3].
Qed.

End Whole.

(** ** What a run leaves alone, and what it depends on *)

Section Frame.
Context {Expression error H : Type} `{!Runner Expression error H}.

Implicit Types (w : World H) (resource : hclext.Block Expression)
  (blocks : list (hclext.Block Expression))
  (attribute : hclext.Attribute Expression) (t : list (Event Expression)).

(** Case analysis on a run of the loop body, by the host's answers. *)
Ltac visit_cases w resource :=
  unfold visit, bind, field, runner_EvaluateExpr, callback, bind, field,
    runner_EmitIssue, ret;
  destruct (hclext.Attributes (hclext.Body resource) !! attributeName (self w))
    as [attribute|]; simpl; [|try easy];
  destruct (EvaluateExpr (hclext.Expr attribute) (host w)) as [[value| |e] h1];
  simpl; [|try easy..];
  destruct (HasPrefix value (prefix (self w))); simpl; [try easy|];
  destruct (EmitIssue _ _ _ h1) as [[e|] h2]; simpl; try easy.

Lemma visit_self resource w : self (world_of (visit resource w)) = self w.
Proof. unfold world_of. visit_cases w resource. Qed.

Lemma range_Blocks_self blocks w :
  self (world_of (range_Blocks blocks w)) = self w.
Proof.
  revert w. induction blocks as [|b bs IH]; intros w; [reflexivity|].
  rewrite range_Blocks_cons.
  pose proof (visit_self b w) as Hb. pose proof (IH (world_of (visit b w))) as Hbs.
  destruct (visit b w) as [[[e|] w1] t1]; [exact Hb|].
  unfold world_of in *. simpl in *.
  destruct (range_Blocks bs w1) as [[res2 w2] t2]. simpl in *. congruence.
Qed.

Lemma Check_self w : self (world_of (Check w)) = self w.
Proof.
  destruct (GetResourceContent (resourceType (self w)) (query_schema (self w)) (host w))
    as [[e|content] h0] eqn:Hq.
  - now rewrite (Check_query_failed _ _ _ Hq).
  - rewrite (Check_query_ok _ _ _ Hq).
    pose proof (range_Blocks_self (hclext.Blocks content) (mkWorld (self w) h0)) as Hs.
    now destruct (range_Blocks _ _) as [[res w1] t].
Qed.

Lemma Check_times_succ n w :
  Check_times (S n) w =
    let '(res, w1, t1) := Check w in
    let '(more, w2, t2) := Check_times n w1 in
    (res :: more, w2, (t1 ++ t2)%list).
Proof.
  simpl. unfold bind at 1. destruct (Check w) as [[res w1] t1].
  unfold bind, ret. destruct (Check_times n w1) as [[more w2] t2].
  now rewrite app_nil_r.
Qed.

Lemma Check_times_self n w : self (world_of (Check_times n w)) = self w.
Proof.
  revert w. induction n as [|n IH]; intros w; [reflexivity|].
  rewrite Check_times_succ.
  pose proof (Check_self w) as Hc. pose proof (IH (world_of (Check w))) as Hn.
  destruct (Check w) as [[res w1] t1]. unfold world_of in *. simpl in *.
  destruct (Check_times n w1) as [[more w2] t2]. simpl in *. congruence.
Qed.

Lemma emitted_app t1 t2 : emitted (t1 ++ t2) = (emitted t1 ++ emitted t2)%list.
Proof. apply omap_app. Qed.

Lemma visit_emitted_by resource w : emitted_by (self w) (events_of (visit resource w)).
Proof.
  unfold emitted_by, events_of. visit_cases w resource; repeat constructor.
Qed.

Lemma range_Blocks_emitted_by blocks w :
  emitted_by (self w) (events_of (range_Blocks blocks w)).
Proof.
  revert w. induction blocks as [|b bs IH]; intros w; [constructor|].
  rewrite range_Blocks_cons.
  pose proof (visit_emitted_by b w) as Hb. pose proof (visit_self b w) as Hs.
  pose proof (IH (world_of (visit b w))) as Hbs. rewrite Hs in Hbs.
  destruct (visit b w) as [[[e|] w1] t1]; [exact Hb|].
  unfold world_of, events_of, emitted_by in *. simpl in *.
  destruct (range_Blocks bs w1) as [[res2 w2] t2]. simpl in *.
  rewrite emitted_app. now apply Forall_app.
Qed.

Lemma Check_emitted_by w : emitted_by (self w) (events_of (Check w)).
Proof.
  destruct (GetResourceContent (resourceType (self w)) (query_schema (self w)) (host w))
    as [[e|content] h0] eqn:Hq.
  - rewrite (Check_query_failed _ _ _ Hq). constructor.
  - rewrite (Check_query_ok _ _ _ Hq).
    pose proof (range_Blocks_emitted_by (hclext.Blocks content) (mkWorld (self w) h0))
      as Hr.
    destruct (range_Blocks _ _) as [[res w1] t]. exact Hr.
Qed.

(** With an empty prefix nothing is emitted. *)
Lemma visit_empty_prefix resource w :
  prefix (self w) = "" -> emitted (events_of (visit resource w)) = [].
Proof.
  intros Hp. unfold events_of.
  unfold visit, bind, field, runner_EvaluateExpr, callback, bind, field.
  destruct (hclext.Attributes (hclext.Body resource) !! attributeName (self w))
    as [attribute|]; simpl; [|reflexivity].
  destruct (EvaluateExpr (hclext.Expr attribute) (host w)) as [[value| |e] h1];
    simpl; try reflexivity.
  now rewrite Hp, HasPrefix_empty.
Qed.

Lemma range_Blocks_empty_prefix blocks w :
  prefix (self w) = "" -> emitted (events_of (range_Blocks blocks w)) = [].
Proof.
  revert w. induction blocks as [|b bs IH]; intros w Hp; [reflexivity|].
  rewrite range_Blocks_cons.
  pose proof (visit_empty_prefix b w Hp) as Hb. pose proof (visit_self b w) as Hs.
  pose proof (IH (world_of (visit b w))) as Hbs. rewrite Hs in Hbs.
  specialize (Hbs Hp).
  destruct (visit b w) as [[[e|] w1] t1]; [exact Hb|].
  unfold world_of, events_of in *. simpl in *.
  destruct (range_Blocks bs w1) as [[res2 w2] t2]. simpl in *.
  now rewrite emitted_app, Hb, Hbs.
Qed.

(** With fixed responses, a run depends on the receiver only. *)
Lemma visit_fixed resource w w' :
  fixed_responses -> self w = self w' ->
  result_of (visit resource w) = result_of (visit resource w')
  /\ events_of (visit resource w) = events_of (visit resource w').
Proof.
  intros (_ & Hev & Hem) Hs. unfold result_of, events_of.
  unfold visit, bind, field, runner_EvaluateExpr, callback, bind, field,
    runner_EmitIssue, ret.
  rewrite <- Hs.
  destruct (hclext.Attributes (hclext.Body resource) !! attributeName (self w))
    as [attribute|]; simpl; [|easy].
  specialize (Hev (hclext.Expr attribute) (host w) (host w')).
  destruct (EvaluateExpr (hclext.Expr attribute) (host w)) as [o h1].
  destruct (EvaluateExpr (hclext.Expr attribute) (host w')) as [o' h1'].
  simpl in Hev. subst o'. destruct o as [value| |e]; simpl; [|easy..].
  rewrite <- Hs.
  destruct (HasPrefix value (prefix (self w))); simpl; [easy|].
  specialize (Hem (self w)
                (Sprintf_s "Okta group name must start with '" "'" (prefix (self w)))
                (hclext.Range attribute) h1 h1').
  destruct (EmitIssue _ _ _ h1) as [r h2]. destruct (EmitIssue _ _ _ h1') as [r' h2'].
  simpl in Hem. subst r'. destruct r; simpl; easy.
Qed.

Lemma range_Blocks_fixed blocks w w' :
  fixed_responses -> self w = self w' ->
  result_of (range_Blocks blocks w) = result_of (range_Blocks blocks w')
  /\ events_of (range_Blocks blocks w) = events_of (range_Blocks blocks w').
Proof.
  intros Hfix. revert w w'. induction blocks as [|b bs IH]; intros w w' Hs; [easy|].
  rewrite !range_Blocks_cons.
  destruct (visit_fixed b w w' Hfix Hs) as [Hr Ht].
  pose proof (visit_self b w) as S1. pose proof (visit_self b w') as S2.
  destruct (visit b w) as [[r1 w1] t1]. destruct (visit b w') as [[r1' w1'] t1'].
  unfold result_of, events_of, world_of in *. simpl in *. subst r1' t1'.
  destruct r1 as [e|]; [easy|].
  destruct (IH w1 w1') as [Hr' Ht']; [congruence|].
  destruct (range_Blocks bs w1) as [[r2 w2] t2].
  destruct (range_Blocks bs w1') as [[r2' w2'] t2'].
  simpl in *. now subst.
Qed.

Lemma Check_fixed w w' :
  fixed_responses -> self w = self w' ->
  result_of (Check w) = result_of (Check w')
  /\ events_of (Check w) = events_of (Check w').
Proof.
  intros Hfix Hs. pose proof Hfix as (Hq & _ & _).
  specialize (Hq (resourceType (self w)) (query_schema (self w)) (host w) (host w')).
  destruct (GetResourceContent _ _ (host w)) as [q h0] eqn:E.
  destruct (GetResourceContent _ _ (host w')) as [q' h0'] eqn:E'.
  simpl in Hq. subst q'. rewrite Hs in E'. destruct q as [e|content].
  - rewrite (Check_query_failed _ _ _ E), (Check_query_failed _ _ _ E').
    now rewrite Hs.
  - rewrite (Check_query_ok _ _ _ E), (Check_query_ok _ _ _ E').
    destruct (range_Blocks_fixed (hclext.Blocks content) (mkWorld (self w) h0)
                (mkWorld (self w') h0') Hfix Hs) as [Hr Ht].
    destruct (range_Blocks _ (mkWorld (self w) h0)) as [[r1 w1] t1].
    destruct (range_Blocks _ (mkWorld (self w') h0')) as [[r1' w1'] t1'].
    unfold result_of, events_of in *. simpl in *. now subst; rewrite Hs.
Qed.

End Frame.

(** ** The behaviour of [Check], block by block *)

Section Blocks.
Context {Expression error H : Type} `{!Runner Expression error H}.

Implicit Types (w : World H) (resource : hclext.Block Expression)
  (before after : list (hclext.Block Expression))
  (attribute : hclext.Attribute Expression) (t : list (Event Expression)).

(** The receiver seen by a block that is reached is the one [Check]
    started with. *)
Lemma reached_self w h0 before w1 t1 :
  range_Blocks before (mkWorld (self w) h0) = (None, w1, t1) -> self w1 = self w.
Proof.
  intros Hb. pose proof (range_Blocks_self before (mkWorld (self w) h0)) as Hs.
  now rewrite Hb in Hs.
Qed.

(** C1: a block whose attribute resolves to a string without the prefix
    makes [Check] emit exactly one issue: the calls made for the block are
    the evaluation and one emission, the issue has the range of the
    attribute and the message [Okta group name must start with '<prefix>'],
    which for the rule built by [NewOktaGroupNamePrefixRule] reads
    [Okta group name must start with 'terraform-'].  [Check] then goes on
    with the later blocks, unless the emission failed. *)
Theorem violating_block_emits_one_issue
  w content h0 before resource after w1 t1 attribute value h1 :
  GetResourceContent (resourceType (self w)) (query_schema (self w)) (host w)
    = (inr content, h0) ->
  hclext.Blocks content = (before ++ resource :: after)%list ->
  range_Blocks before (mkWorld (self w) h0) = (None, w1, t1) ->
  hclext.Attributes (hclext.Body resource) !! attributeName (self w) = Some attribute ->
  EvaluateExpr (hclext.Expr attribute) (host w1) = (Resolved value, h1) ->
  HasPrefix value (prefix (self w)) = false ->
  let message := "Okta group name must start with '" +:+ prefix (self w) +:+ "'" in
  let calls := [EvEvaluateExpr (hclext.Expr attribute);
                EvEmitIssue (self w) message (hclext.Range attribute)] in
  let '(res, h2) := EmitIssue (self w) message (hclext.Range attribute) h1 in
  visit resource w1 = (res, mkWorld (self w) h2, calls)
  /\ emitted calls = [(self w, message, hclext.Range attribute)]
  /\ issue_message NewOktaGroupNamePrefixRule
     = "Okta group name must start with 'terraform-'"
  /\ Check w =
       match res with
       | Some e => (Some e, mkWorld (self w) h2, (opening (self w) ++ t1 ++ calls)%list)
       | None =>
           let '(res3, w3, t3) := range_Blocks after (mkWorld (self w) h2) in
           (res3, w3, (opening (self w) ++ t1 ++ calls ++ t3)%list)
       end.
Proof.
  intros Hq Hb Hbefore Hat Hev Hpre message calls.
  pose proof (reached_self _ _ _ _ _ Hbefore) as Hs.
  destruct (EmitIssue (self w) message (hclext.Range attribute) h1) as [res h2] eqn:Hem.
  assert (Hv : visit resource w1 = (res, mkWorld (self w) h2, calls)).
  { pose proof (visit_violating w1 resource attribute value h1 res h2) as Hv.
    rewrite Hs in Hv. now apply Hv. }
  repeat split; [exact Hv|].
  rewrite (Check_at_block _ _ _ _ _ _ _ _ Hq Hb Hbefore), Hv.
  now destruct res.
Qed.

(** C2: a block without the attribute is skipped: processing it makes no
    call at all (no evaluation, no issue), yields no error and changes
    nothing, and [Check] goes on with the later blocks. *)
Theorem block_without_attribute_is_skipped
  w content h0 before resource after w1 t1 :
  GetResourceContent (resourceType (self w)) (query_schema (self w)) (host w)
    = (inr content, h0) ->
  hclext.Blocks content = (before ++ resource :: after)%list ->
  range_Blocks before (mkWorld (self w) h0) = (None, w1, t1) ->
  hclext.Attributes (hclext.Body resource) !! attributeName (self w) = None ->
  visit resource w1 = (None, w1, [])
  /\ Check w =
       let '(res3, w3, t3) := range_Blocks after w1 in
       (res3, w3, (opening (self w) ++ t1 ++ t3)%list).
Proof.
  intros Hq Hb Hbefore Hat.
  pose proof (reached_self _ _ _ _ _ Hbefore) as Hs.
  assert (Hv : visit resource w1 = (None, w1, [])).
  { apply visit_absent. now rewrite Hs. }
  split; [exact Hv|].
  now rewrite (Check_at_block _ _ _ _ _ _ _ _ Hq Hb Hbefore), Hv.
Qed.

(** C3: a block whose attribute resolves to a string that starts with
    the prefix, byte for byte, makes [Check] evaluate the expression and
    emit nothing; [Check] goes on with the later blocks. *)
Theorem compliant_block_emits_nothing
  w content h0 before resource after w1 t1 attribute value h1 :
  GetResourceContent (resourceType (self w)) (query_schema (self w)) (host w)
    = (inr content, h0) ->
  hclext.Blocks content = (before ++ resource :: after)%list ->
  range_Blocks before (mkWorld (self w) h0) = (None, w1, t1) ->
  hclext.Attributes (hclext.Body resource) !! attributeName (self w) = Some attribute ->
  EvaluateExpr (hclext.Expr attribute) (host w1) = (Resolved value, h1) ->
  HasPrefix value (prefix (self w)) = true ->
  let calls := [EvEvaluateExpr (hclext.Expr attribute)] in
  (exists rest, value = prefix (self w) +:+ rest)
  /\ visit resource w1 = (None, mkWorld (self w) h1, calls)
  /\ emitted calls = []
  /\ Check w =
       let '(res3, w3, t3) := range_Blocks after (mkWorld (self w) h1) in
       (res3, w3, (opening (self w) ++ t1 ++ calls ++ t3)%list).
Proof.
  intros Hq Hb Hbefore Hat Hev Hpre calls.
  pose proof (reached_self _ _ _ _ _ Hbefore) as Hs.
  assert (Hv : visit resource w1 = (None, mkWorld (self w) h1, calls)).
  { pose proof (visit_compliant w1 resource attribute value h1) as Hv.
    rewrite Hs in Hv. now apply Hv. }
  split; [now apply HasPrefix_true_iff|].
  repeat split; [exact Hv|].
  now rewrite (Check_at_block _ _ _ _ _ _ _ _ Hq Hb Hbefore), Hv.
Qed.

(** C4: when the evaluation or the emission fails at a block, [Check]
    returns that very error and stops: its events end with the calls made
    for the failing block, whatever blocks come later, and the events of
    the earlier blocks, with the issues emitted there, stay. *)
Theorem host_error_stops_Check
  w content h0 before resource after w1 t1 attribute e h2 calls :
  GetResourceContent (resourceType (self w)) (query_schema (self w)) (host w)
    = (inr content, h0) ->
  hclext.Blocks content = (before ++ resource :: after)%list ->
  range_Blocks before (mkWorld (self w) h0) = (None, w1, t1) ->
  hclext.Attributes (hclext.Body resource) !! attributeName (self w) = Some attribute ->
  host_failure (self w) attribute (host w1) e h2 calls ->
  Check w = (Some e, mkWorld (self w) h2, (opening (self w) ++ t1 ++ calls)%list)
  /\ emitted (events_of (Check w)) = (emitted t1 ++ emitted calls)%list.
Proof.
  intros Hq Hb Hbefore Hat Hfail.
  pose proof (reached_self _ _ _ _ _ Hbefore) as Hs.
  assert (Hv : visit resource w1 = (Some e, mkWorld (self w) h2, calls)).
  { destruct Hfail as [e h1 Hev | value h1 e h2 Hev Hpre Hem].
    - pose proof (visit_eval_failed w1 resource attribute e h1) as Hv.
      rewrite Hs in Hv. now apply Hv.
    - pose proof (visit_violating w1 resource attribute value h1 (Some e) h2) as Hv.
      rewrite Hs in Hv. now apply Hv. }
  assert (Hc : Check w
               = (Some e, mkWorld (self w) h2, (opening (self w) ++ t1 ++ calls)%list)).
  { now rewrite (Check_at_block _ _ _ _ _ _ _ _ Hq Hb Hbefore), Hv. }
  split; [exact Hc|].
  rewrite Hc. unfold events_of. simpl. now rewrite emitted_app.
Qed.

(** C5: when the resource query fails, [Check] returns that very error
    after the debug line and the one query: no second query, no
    evaluation, no issue. *)
Theorem query_error_is_returned w e h0 :
  GetResourceContent (resourceType (self w)) (query_schema (self w)) (host w)
    = (inl e, h0) ->
  Check w =
    (Some e, mkWorld (self w) h0,
     [EvDebug "checking okta_group_name_prefix rule";
      EvGetResourceContent (resourceType (self w))
        (hclext.mkBodySchema [hclext.mkAttributeSchema (attributeName (self w))])])
  /\ evaluated (events_of (Check w)) = []
  /\ emitted (events_of (Check w)) = [].
Proof.
  intros Hq. rewrite (Check_query_failed _ _ _ Hq). now repeat split.
Qed.

End Blocks.

(** ** Whole runs of [Check] *)

Section Runs.
Context {Expression error H : Type} `{!Runner Expression error H}.

Implicit Types (w : World H).

Local Abbreviation Name := (Name (Expression := Expression)).
Local Abbreviation Enabled := (Enabled (Expression := Expression)).
Local Abbreviation Severity := (Severity (Expression := Expression)).

(** C6: with fixed host responses a second run of [Check], made right
    after a first one, emits the same issues as the first did: it makes
    the same calls and returns the same result, and the receiver it leaves
    is the one the first run started with. *)
Theorem Check_twice_same_issues w :
  fixed_responses ->
  let first := Check w in
  let second := Check (world_of first) in
  emitted (events_of second) = emitted (events_of first)
  /\ events_of second = events_of first
  /\ result_of second = result_of first
  /\ self (world_of second) = self w.
Proof.
  intros Hfix first second.
  assert (Hs : self (world_of first) = self w) by apply Check_self.
  destruct (Check_fixed (world_of first) w Hfix Hs) as [Hr Ht].
  subst first second. repeat split.
  - now rewrite Ht.
  - exact Ht.
  - exact Hr.
  - now rewrite Check_self.
Qed.

(** C7: with the empty prefix every value passes the prefix test, and
    [Check] emits no issue, whatever the host returns. *)
Theorem empty_prefix_emits_nothing w value :
  prefix (self w) = "" ->
  HasPrefix value (prefix (self w)) = true
  /\ emitted (events_of (Check w)) = [].
Proof.
  intros Hp. split.
  - rewrite Hp. apply HasPrefix_empty.
  - destruct (GetResourceContent (resourceType (self w)) (query_schema (self w)) (host w))
      as [[e|content] h0] eqn:Hq.
    + now rewrite (Check_query_failed _ _ _ Hq).
    + rewrite (Check_query_ok _ _ _ Hq).
      pose proof (range_Blocks_empty_prefix (hclext.Blocks content)
                    (mkWorld (self w) h0) Hp) as Hr.
      destruct (range_Blocks _ _) as [[res w1] t]. exact Hr.
Qed.

(** C8: the rule built by [NewOktaGroupNamePrefixRule] has the fields
    [okta_group], [name] and [terraform-], none of them empty; [Name],
    [Enabled] and [Severity] return their value in every world, leave the
    world as it is and make no call, and [Enabled] returns [true]. *)
Theorem constructor_and_accessors w :
  (resourceType NewOktaGroupNamePrefixRule = "okta_group"
   /\ attributeName NewOktaGroupNamePrefixRule = "name"
   /\ prefix NewOktaGroupNamePrefixRule = "terraform-")
  /\ (resourceType NewOktaGroupNamePrefixRule <> ""
      /\ attributeName NewOktaGroupNamePrefixRule <> ""
      /\ prefix NewOktaGroupNamePrefixRule <> "")
  /\ Name w = ("okta_group_name_prefix", w, [])
  /\ Enabled w = (true, w, [])
  /\ Severity w = (tflint.ERROR, w, []).
Proof. repeat split; discriminate. Qed.

(** C9: [Severity] returns [ERROR] in every world, and every issue
    [Check] emits is emitted for the receiver, whose severity is
    [ERROR]. *)
Theorem severity_is_error w :
  Severity w = (tflint.ERROR, w, [])
  /\ Forall (fun issue =>
               fst (fst issue) = self w
               /\ forall h : H,
                   result_of (Severity (mkWorld (fst (fst issue)) h)) = tflint.ERROR)
       (emitted (events_of (Check w))).
Proof.
  split; [reflexivity|].
  eapply Forall_impl; [apply Check_emitted_by|].
  intros issue Hi. split; [exact Hi | reflexivity].
Qed.

(** C10: any number of runs of [Check], whatever they return, leave the
    receiver as it was: the fields are unchanged, and so are the results
    of [Name], [Enabled] and [Severity]. *)
Theorem Check_keeps_configuration (n : nat) w :
  let after := world_of (Check_times n w) in
  self after = self w
  /\ (resourceType (self after) = resourceType (self w)
      /\ attributeName (self after) = attributeName (self w)
      /\ prefix (self after) = prefix (self w))
  /\ (result_of (Name after) = result_of (Name w)
      /\ result_of (Enabled after) = result_of (Enabled w)
      /\ result_of (Severity after) = result_of (Severity w)).
Proof.
  intros after. assert (Hs : self after = self w) by apply Check_times_self.
  rewrite Hs. repeat split.
Qed.

End Runs.

(** ** The theorems at work on the example host

    Each theorem above that has hypotheses is applied to a run of the
    example host, with every hypothesis checked by computation. *)

Lemma violating_block_emits_one_issue_witness :
  visit (Runner0 := Mock.runner (Mock.serving [Mock.g1; Mock.g2; Mock.g3]))
    Mock.g2 Mock.start
  = (None, Mock.reported 1, Mock.seen_g2)
  /\ emitted Mock.seen_g2 = [(NewOktaGroupNamePrefixRule, Mock.message, Mock.at_line 6)]
  /\ issue_message NewOktaGroupNamePrefixRule
     = "Okta group name must start with 'terraform-'"
  /\ Check (Runner0 := Mock.runner (Mock.serving [Mock.g1; Mock.g2; Mock.g3])) Mock.start
     = (None, Mock.reported 1,
        (opening NewOktaGroupNamePrefixRule ++ Mock.seen_g1 ++ Mock.seen_g2 ++ [])%list).
Proof.
  apply (violating_block_emits_one_issue
           (Runner0 := Mock.runner (Mock.serving [Mock.g1; Mock.g2; Mock.g3]))
           Mock.start (Mock.content [Mock.g1; Mock.g2; Mock.g3]) []
           [Mock.g1] Mock.g2 [Mock.g3] Mock.start Mock.seen_g1
           (Mock.name_is (Mock.Lit "admins") 6) "admins" []);
    reflexivity.
Defined.

Lemma block_without_attribute_is_skipped_witness :
  visit (Runner0 := Mock.runner (Mock.serving [Mock.g1; Mock.g2; Mock.g3; Mock.g6]))
    Mock.g3 (Mock.reported 1)
  = (None, Mock.reported 1, [])
  /\ Check (Runner0 := Mock.runner (Mock.serving [Mock.g1; Mock.g2; Mock.g3; Mock.g6]))
       Mock.start
     = (None,
        mkWorld NewOktaGroupNamePrefixRule
          [(Mock.message, Mock.at_line 6); (Mock.message, Mock.at_line 22)],
        (opening NewOktaGroupNamePrefixRule ++ (Mock.seen_g1 ++ Mock.seen_g2)
         ++ [EvEvaluateExpr (Mock.Lit "Terraform-ops");
             EvEmitIssue NewOktaGroupNamePrefixRule Mock.message (Mock.at_line 22)])%list).
Proof.
  apply (block_without_attribute_is_skipped
           (Runner0 := Mock.runner (Mock.serving [Mock.g1; Mock.g2; Mock.g3; Mock.g6]))
           Mock.start (Mock.content [Mock.g1; Mock.g2; Mock.g3; Mock.g6]) []
           [Mock.g1; Mock.g2] Mock.g3 [Mock.g6] (Mock.reported 1)
           (Mock.seen_g1 ++ Mock.seen_g2)%list);
    reflexivity.
Defined.

Lemma compliant_block_emits_nothing_witness :
  (exists rest, "terraform-admins" = prefix NewOktaGroupNamePrefixRule +:+ rest)
  /\ visit (Runner0 := Mock.runner (Mock.serving [Mock.g1; Mock.g2])) Mock.g1 Mock.start
     = (None, Mock.start, Mock.seen_g1)
  /\ emitted Mock.seen_g1 = []
  /\ Check (Runner0 := Mock.runner (Mock.serving [Mock.g1; Mock.g2])) Mock.start
     = (None, Mock.reported 1,
        (opening NewOktaGroupNamePrefixRule ++ [] ++ Mock.seen_g1 ++ Mock.seen_g2)%list).
Proof.
  apply (compliant_block_emits_nothing
           (Runner0 := Mock.runner (Mock.serving [Mock.g1; Mock.g2]))
           Mock.start (Mock.content [Mock.g1; Mock.g2]) []
           [] Mock.g1 [Mock.g2] Mock.start []
           (Mock.name_is (Mock.Lit "terraform-admins") 2) "terraform-admins" []);
    reflexivity.
Defined.

Lemma host_error_stops_Check_witness :
  (Check (Runner0 := Mock.runner (Mock.serving [Mock.g1; Mock.g2; Mock.g4; Mock.g6]))
     Mock.start
   = (Some "cannot evaluate expression", Mock.reported 1,
      (opening NewOktaGroupNamePrefixRule ++ (Mock.seen_g1 ++ Mock.seen_g2)
       ++ [EvEvaluateExpr Mock.Broken])%list)
   /\ emitted (events_of
                 (Check (Runner0 := Mock.runner
                                      (Mock.serving [Mock.g1; Mock.g2; Mock.g4; Mock.g6]))
                    Mock.start))
      = (emitted (Mock.seen_g1 ++ Mock.seen_g2) ++ emitted [EvEvaluateExpr Mock.Broken])%list)
  /\ (Check (Runner0 := Mock.runner (Mock.closed [Mock.g1; Mock.g2; Mock.g6])) Mock.start
      = (Some "reporting channel closed", Mock.start,
         (opening NewOktaGroupNamePrefixRule ++ Mock.seen_g1 ++ Mock.seen_g2)%list)
      /\ emitted (events_of
                    (Check (Runner0 := Mock.runner (Mock.closed [Mock.g1; Mock.g2; Mock.g6]))
                       Mock.start))
         = (emitted Mock.seen_g1 ++ emitted Mock.seen_g2)%list).
Proof.
  split.
  - apply (host_error_stops_Check
             (Runner0 := Mock.runner (Mock.serving [Mock.g1; Mock.g2; Mock.g4; Mock.g6]))
             Mock.start (Mock.content [Mock.g1; Mock.g2; Mock.g4; Mock.g6]) []
             [Mock.g1; Mock.g2] Mock.g4 [Mock.g6] (Mock.reported 1)
             (Mock.seen_g1 ++ Mock.seen_g2)%list (Mock.name_is Mock.Broken 14));
      try reflexivity.
    apply (evaluation_fails (Runner0 := Mock.runner _)). reflexivity.
  - apply (host_error_stops_Check
             (Runner0 := Mock.runner (Mock.closed [Mock.g1; Mock.g2; Mock.g6]))
             Mock.start (Mock.content [Mock.g1; Mock.g2; Mock.g6]) []
             [Mock.g1] Mock.g2 [Mock.g6] Mock.start
             Mock.seen_g1 (Mock.name_is (Mock.Lit "admins") 6));
      try reflexivity.
    apply (emission_fails (Runner0 := Mock.runner _)) with (value := "admins") (h1 := []);
      reflexivity.
Defined.

Lemma query_error_is_returned_witness :
  Check (Runner0 := Mock.runner Mock.rejecting) Mock.start
  = (Some "unsupported schema", Mock.start,
     [EvDebug "checking okta_group_name_prefix rule";
      EvGetResourceContent "okta_group"
        (hclext.mkBodySchema [hclext.mkAttributeSchema "name"])])
  /\ evaluated (events_of (Check (Runner0 := Mock.runner Mock.rejecting) Mock.start)) = []
  /\ emitted (events_of (Check (Runner0 := Mock.runner Mock.rejecting) Mock.start)) = [].
Proof.
  apply (query_error_is_returned (Runner0 := Mock.runner Mock.rejecting)
           Mock.start "unsupported schema" []).
  reflexivity.
Defined.

Lemma Check_twice_same_issues_witness :
  let first :=
    Check (Runner0 := Mock.runner (Mock.serving [Mock.g1; Mock.g2; Mock.g3])) Mock.start in
  let second :=
    Check (Runner0 := Mock.runner (Mock.serving [Mock.g1; Mock.g2; Mock.g3]))
      (world_of first) in
  emitted (events_of second) = emitted (events_of first)
  /\ events_of second = events_of first
  /\ result_of second = result_of first
  /\ self (world_of second) = self Mock.start.
Proof.
  apply (Check_twice_same_issues
           (Runner0 := Mock.runner (Mock.serving [Mock.g1; Mock.g2; Mock.g3])) Mock.start).
  repeat split; intros; reflexivity.
Defined.

Lemma empty_prefix_emits_nothing_witness :
  HasPrefix "admins" (prefix (self Mock.any_name)) = true
  /\ emitted (events_of
                (Check (Runner0 := Mock.runner (Mock.serving [Mock.g1; Mock.g2; Mock.g6]))
                   Mock.any_name))
     = [].
Proof.
  apply (empty_prefix_emits_nothing
           (Runner0 := Mock.runner (Mock.serving [Mock.g1; Mock.g2; Mock.g6]))
           Mock.any_name "admins").
  reflexivity.
Defined.

(** * Further properties of [Check] *)

(** ** Shared facts about one block and about the loop *)

Section LoopFacts.
Context {Expression error H : Type} `{!Runner Expression error H}.

Implicit Types (w : World H) (resource : hclext.Block Expression)
  (blocks : list (hclext.Block Expression))
  (attribute : hclext.Attribute Expression) (t : list (Event Expression)).

Lemma visit_is_outcome resource w : visit resource w = visit_outcome resource w.
Proof.
  unfold visit, visit_outcome, named, bind, field, runner_EvaluateExpr, callback,
    bind, field, runner_EmitIssue, ret, issue_message, Sprintf_s.
  destruct (hclext.Attributes (hclext.Body resource) !! attributeName (self w))
    as [attribute|]; simpl; [|reflexivity].
  destruct (EvaluateExpr (hclext.Expr attribute) (host w)) as [[value| |e] h1];
    simpl; try reflexivity.
  destruct (HasPrefix value (prefix (self w))); simpl; [reflexivity|].
  destruct (EmitIssue _ _ _ h1) as [[e|] h2]; reflexivity.
Qed.

Lemma evaluated_app t1 t2 : evaluated (t1 ++ t2) = (evaluated t1 ++ evaluated t2)%list.
Proof. apply omap_app. Qed.

Lemma queries_app t1 t2 : queries (t1 ++ t2) = (queries t1 ++ queries t2)%list.
Proof. apply omap_app. Qed.

(** An observation of the events that is made block by block is made, over
    the loop, on the blocks in order, up to the block where the loop
    stops. *)
Lemma range_Blocks_observed {A} (obs : list (Event Expression) -> list A)
  (g : hclext.Block Expression -> option A) (r : OktaGroupNamePrefixRule) :
  (forall t1 t2, obs (t1 ++ t2)%list = (obs t1 ++ obs t2)%list) ->
  obs [] = [] ->
  (forall resource w, self w = r ->
     obs (events_of (visit resource w)) = option_list (g resource)) ->
  forall blocks w, self w = r ->
    exists rest,
      omap g blocks = (obs (events_of (range_Blocks blocks w)) ++ rest)%list
      /\ (result_of (range_Blocks blocks w) = None -> rest = []).
Proof.
  intros Happ Hnil Hone. induction blocks as [|b bs IH]; intros w Hw.
  - exists []. simpl. unfold events_of, ret. simpl. now rewrite Hnil.
  - rewrite range_Blocks_cons.
    pose proof (Hone b w Hw) as Hb. pose proof (visit_self b w) as Hs.
    destruct (visit b w) as [[[e|] w1] t1]; unfold events_of, world_of, result_of in *;
      simpl in *.
    + exists (omap g bs). split; [|discriminate].
      rewrite Hb. now destruct (g b).
    + destruct (IH w1) as (rest & Hrest & Hnone); [congruence|].
      destruct (range_Blocks bs w1) as [[res2 w2] t2]. simpl in *.
      exists rest. split; [|exact Hnone].
      rewrite Happ, Hb, <- app_assoc, <- Hrest. now destruct (g b).
Qed.

Lemma visit_evaluated resource w :
  evaluated (events_of (visit resource w))
  = option_list (hclext.Expr <$> named (self w) resource).
Proof.
  rewrite visit_is_outcome. unfold visit_outcome, events_of.
  destruct (named (self w) resource) as [attribute|]; simpl; [|reflexivity].
  destruct (EvaluateExpr (hclext.Expr attribute) (host w)) as [[value| |e] h1];
    simpl; try reflexivity.
  destruct (HasPrefix value (prefix (self w))); simpl; [reflexivity|].
  now destruct (EmitIssue _ _ _ h1) as [res h2].
Qed.

Lemma visit_violation (value_of : Expression -> EvalOutcome error) resource w :
  (forall e h, fst (EvaluateExpr e h) = value_of e) ->
  emitted (events_of (visit resource w))
  = option_list (violation (self w) value_of resource).
Proof.
  intros Hval. rewrite visit_is_outcome. unfold visit_outcome, violation, events_of.
  destruct (named (self w) resource) as [attribute|]; simpl; [|reflexivity].
  specialize (Hval (hclext.Expr attribute) (host w)).
  destruct (EvaluateExpr (hclext.Expr attribute) (host w)) as [out h1].
  simpl in Hval. subst out.
  destruct (value_of (hclext.Expr attribute)) as [value| |e]; simpl; try reflexivity.
  destruct (HasPrefix value (prefix (self w))); simpl; [reflexivity|].
  now destruct (EmitIssue _ _ _ h1) as [res h2].
Qed.

Lemma visit_queries resource w : queries (events_of (visit resource w)) = [].
Proof.
  rewrite visit_is_outcome. unfold visit_outcome, events_of.
  destruct (named (self w) resource) as [attribute|]; simpl; [|reflexivity].
  destruct (EvaluateExpr (hclext.Expr attribute) (host w)) as [[value| |e] h1];
    simpl; try reflexivity.
  destruct (HasPrefix value (prefix (self w))); simpl; [reflexivity|].
  now destruct (EmitIssue _ _ _ h1) as [res h2].
Qed.

Lemma range_Blocks_queries blocks w : queries (events_of (range_Blocks blocks w)) = [].
Proof.
  revert w. induction blocks as [|b bs IH]; intros w; [reflexivity|].
  rewrite range_Blocks_cons.
  pose proof (visit_queries b w) as Hb. pose proof (IH (world_of (visit b w))) as Hbs.
  destruct (visit b w) as [[[e|] w1] t1]; [exact Hb|].
  unfold world_of, events_of in *. simpl in *.
  destruct (range_Blocks bs w1) as [[res2 w2] t2]. simpl in *.
  now rewrite queries_app, Hb, Hbs.
Qed.

(** [Check] in terms of the answer to its query. *)
Lemma Check_by_query w :
  Check w =
    match GetResourceContent (resourceType (self w)) (query_schema (self w)) (host w) with
    | (inl e, h0) => (Some e, mkWorld (self w) h0, opening (self w))
    | (inr content, h0) =>
        let '(res, w1, t) := range_Blocks (hclext.Blocks content) (mkWorld (self w) h0) in
        (res, w1, (opening (self w) ++ t)%list)
    end.
Proof.
  destruct (GetResourceContent _ _ (host w)) as [[e|content] h0] eqn:Hq.
  - apply (Check_query_failed _ _ _ Hq).
  - apply (Check_query_ok _ _ _ Hq).
Qed.

End LoopFacts.

(** ** The decision taken on one value *)

Section Decision.
Context {Expression error H : Type} `{!Runner Expression error H}.

Implicit Types (w : World H) (attribute : hclext.Attribute Expression).

Lemma callback_events attribute value w :
  events_of (callback attribute value w)
  = if HasPrefix value (prefix (self w)) then []
    else [EvEmitIssue (self w) (issue_message (self w)) (hclext.Range attribute)].
Proof.
  unfold callback, bind, field, runner_EmitIssue, ret, events_of, issue_message, Sprintf_s.
  simpl. destruct (HasPrefix value (prefix (self w))); simpl; [reflexivity|].
  now destruct (EmitIssue _ _ _ (host w)) as [[e|] h2].
Qed.

(** X1: the callback reports a value exactly when the value is not the
    prefix followed by some rest; it then emits one issue, with the range
    of the attribute, and otherwise none. *)
Theorem callback_reports_exactly_unprefixed attribute value w :
  let issues := emitted (events_of (callback attribute value w)) in
  (issues = [] <-> exists rest, value = prefix (self w) +:+ rest)
  /\ (issues = []
      \/ issues = [(self w, issue_message (self w), hclext.Range attribute)]).
Proof.
  intros issues. subst issues. rewrite callback_events.
  destruct (HasPrefix value (prefix (self w))) eqn:Hp; simpl.
  - split; [|now left]. split; [|reflexivity].
    intros _. now apply HasPrefix_true_iff.
  - split; [|now right]. split; [discriminate|].
    intros Hrest. apply HasPrefix_true_iff in Hrest. congruence.
Qed.

(** X2: a value shorter than the prefix is always reported, the empty
    value included when the prefix is not empty. *)
Theorem short_value_is_reported attribute value w :
  (String.length value < String.length (prefix (self w)))%nat ->
  emitted (events_of (callback attribute value w))
  = [(self w, issue_message (self w), hclext.Range attribute)].
Proof.
  intros Hlen. rewrite callback_events.
  unfold HasPrefix.
  destruct (Nat.leb_spec (String.length (prefix (self w))) (String.length value)) as [Hle|_];
    [lia|reflexivity].
Qed.

End Decision.

Lemma short_value_is_reported_witness :
  emitted (events_of
             (callback (Runner0 := Mock.runner (Mock.serving []))
                (Mock.name_is (Mock.Lit "terraform") 6) "terraform" Mock.start))
  = [(NewOktaGroupNamePrefixRule, Mock.message, Mock.at_line 6)].
Proof.
  apply (short_value_is_reported (Runner0 := Mock.runner (Mock.serving []))
           (Mock.name_is (Mock.Lit "terraform") 6) "terraform" Mock.start).
  simpl. lia.
Defined.

(** ** What every run of [Check] does *)

Section EveryRun.
Context {Expression error H : Type} `{!Runner Expression error H}.

Implicit Types (w : World H) (resource : hclext.Block Expression)
  (blocks before after : list (hclext.Block Expression))
  (attribute : hclext.Attribute Expression) (t : list (Event Expression)).

(** X3: every run of [Check], whatever its outcome, starts with the debug
    line and the query, and makes no other query: the host is asked once,
    for the resource type of the rule and a schema with the one attribute
    of the rule. *)
Theorem Check_queries_once w :
  (exists rest,
      events_of (Check w)
      = (EvDebug "checking okta_group_name_prefix rule"
         :: EvGetResourceContent (resourceType (self w)) (query_schema (self w))
         :: rest)%list
      /\ queries rest = [])
  /\ queries (events_of (Check w))
     = [(resourceType (self w),
         hclext.mkBodySchema [hclext.mkAttributeSchema (attributeName (self w))])].
Proof.
  rewrite Check_by_query.
  destruct (GetResourceContent _ _ (host w)) as [[e|content] h0].
  - split; [exists []|]; now repeat split.
  - pose proof (range_Blocks_queries (hclext.Blocks content) (mkWorld (self w) h0)) as Hq.
    destruct (range_Blocks _ _) as [[res w1] t]. unfold events_of in *. simpl in *.
    split; [exists t; now split|].
    unfold queries in *. simpl. now rewrite Hq.
Qed.

(** X4: [Check] evaluates the attribute expressions of the returned blocks
    in the order of the blocks, one evaluation per block that sets the
    attribute, up to the block where it stops; when it returns [nil] every
    such block was evaluated, once. *)
Theorem Check_evaluates_in_order w content h0 :
  GetResourceContent (resourceType (self w)) (query_schema (self w)) (host w)
    = (inr content, h0) ->
  (exists rest,
      expressions_of (self w) (hclext.Blocks content)
      = (evaluated (events_of (Check w)) ++ rest)%list)
  /\ (result_of (Check w) = None ->
      evaluated (events_of (Check w)) = expressions_of (self w) (hclext.Blocks content)).
Proof.
  intros Hq. rewrite (Check_query_ok _ _ _ Hq).
  destruct (range_Blocks_observed evaluated
              (fun resource => hclext.Expr <$> named (self w) resource) (self w)
              evaluated_app eq_refl
              (fun resource w' Hw => eq_trans (visit_evaluated resource w')
                                       (f_equal (fun r => option_list
                                                            (hclext.Expr <$> named r resource))
                                          Hw))
              (hclext.Blocks content) (mkWorld (self w) h0) eq_refl)
    as (rest & Hrest & Hnone).
  destruct (range_Blocks _ _) as [[res w1] t].
  unfold events_of, result_of, expressions_of in *. simpl in *.
  split; [now exists rest|].
  intros Hres. rewrite Hrest, (Hnone Hres). now rewrite app_nil_r.
Qed.

(** X5: when every expression has a value that does not depend on the
    state of the host, the issues [Check] emits are the violations among
    the returned blocks, in the order of the blocks, up to the block where
    it stops; when it returns [nil] they are all of them. *)
Theorem Check_emits_the_violations
  (value_of : Expression -> EvalOutcome error) w content h0 :
  (forall e h, fst (EvaluateExpr e h) = value_of e) ->
  GetResourceContent (resourceType (self w)) (query_schema (self w)) (host w)
    = (inr content, h0) ->
  (exists rest,
      violations (self w) value_of (hclext.Blocks content)
      = (emitted (events_of (Check w)) ++ rest)%list)
  /\ (result_of (Check w) = None ->
      emitted (events_of (Check w))
      = violations (self w) value_of (hclext.Blocks content)).
Proof.
  intros Hval Hq. rewrite (Check_query_ok _ _ _ Hq).
  destruct (range_Blocks_observed emitted (violation (self w) value_of) (self w)
              emitted_app eq_refl
              (fun resource w' Hw => eq_trans (visit_violation value_of resource w' Hval)
                                       (f_equal (fun r => option_list
                                                            (violation r value_of resource))
                                          Hw))
              (hclext.Blocks content) (mkWorld (self w) h0) eq_refl)
    as (rest & Hrest & Hnone).
  destruct (range_Blocks _ _) as [[res w1] t].
  unfold events_of, result_of, violations in *. simpl in *.
  split; [now exists rest|].
  intros Hres. rewrite Hrest, (Hnone Hres). now rewrite app_nil_r.
Qed.

End EveryRun.

(** ** Where issues and errors come from *)

Section Origins.
Context {Expression error H : Type} `{!Runner Expression error H}.

Implicit Types (w : World H) (resource : hclext.Block Expression)
  (blocks before after : list (hclext.Block Expression))
  (attribute : hclext.Attribute Expression) (t : list (Event Expression)).

(** An issue of the rule [r] placed on the attribute of one of [blocks]. *)
Let placed (r : OktaGroupNamePrefixRule) blocks
  (issue : OktaGroupNamePrefixRule * string * hcl.Range) : Prop :=
  issue.1.1 = r /\ issue.1.2 = issue_message r
  /\ exists resource attribute,
      resource ∈ blocks /\ named r resource = Some attribute
      /\ issue.2 = hclext.Range attribute.

Lemma visit_placed resource w :
  Forall (placed (self w) [resource]) (emitted (events_of (visit resource w))).
Proof.
  rewrite visit_is_outcome. unfold visit_outcome, events_of.
  destruct (named (self w) resource) as [attribute|] eqn:Hat; simpl; [|constructor].
  destruct (EvaluateExpr (hclext.Expr attribute) (host w)) as [[value| |e] h1];
    simpl; try constructor.
  destruct (HasPrefix value (prefix (self w))); simpl; [constructor|].
  destruct (EmitIssue _ _ _ h1) as [res h2]. simpl.
  repeat constructor. exists resource, attribute. repeat split; [|exact Hat].
  apply list_elem_of_singleton. reflexivity.
Qed.

Lemma placed_weaken r blocks blocks' issue :
  (forall resource, resource ∈ blocks -> resource ∈ blocks') ->
  placed r blocks issue -> placed r blocks' issue.
Proof.
  intros Hsub (Hr & Hm & resource & attribute & Hin & Hat & Hrng).
  repeat split; [exact Hr | exact Hm |].
  exists resource, attribute. auto.
Qed.

Lemma range_Blocks_placed blocks w :
  Forall (placed (self w) blocks) (emitted (events_of (range_Blocks blocks w))).
Proof.
  revert w. induction blocks as [|b bs IH]; intros w; [constructor|].
  rewrite range_Blocks_cons.
  pose proof (visit_placed b w) as Hb. pose proof (visit_self b w) as Hs.
  pose proof (IH (world_of (visit b w))) as Hbs. rewrite Hs in Hbs.
  assert (Hb' : Forall (placed (self w) (b :: bs)) (emitted (events_of (visit b w)))).
  { eapply Forall_impl; [exact Hb|]. intros issue. apply placed_weaken.
    intros x Hx. apply list_elem_of_singleton in Hx. subst x. left. }
  destruct (visit b w) as [[[e|] w1] t1]; [exact Hb'|].
  unfold world_of, events_of in *. simpl in *.
  destruct (range_Blocks bs w1) as [[res2 w2] t2]. simpl in *.
  rewrite emitted_app. apply Forall_app. split; [exact Hb'|].
  eapply Forall_impl; [exact Hbs|]. intros issue. apply placed_weaken.
  intros x Hx. now right.
Qed.

(** X6: every issue [Check] emits is an issue of the rule, with the
    message of the rule, placed on the range of the rule's attribute in one
    of the blocks the host returned; no other location is ever reported. *)
Theorem issues_point_at_returned_attributes w content h0 :
  GetResourceContent (resourceType (self w)) (query_schema (self w)) (host w)
    = (inr content, h0) ->
  Forall (fun issue =>
            issue.1.1 = self w
            /\ issue.1.2 = "Okta group name must start with '" +:+ prefix (self w) +:+ "'"
            /\ exists resource attribute,
                resource ∈ hclext.Blocks content
                /\ hclext.Attributes (hclext.Body resource) !! attributeName (self w)
                   = Some attribute
                /\ issue.2 = hclext.Range attribute)
    (emitted (events_of (Check w))).
Proof.
  intros Hq. rewrite (Check_query_ok _ _ _ Hq).
  pose proof (range_Blocks_placed (hclext.Blocks content) (mkWorld (self w) h0)) as Hp.
  destruct (range_Blocks _ _) as [[res w1] t]. exact Hp.
Qed.

Lemma visit_counts resource w :
  (length (emitted (events_of (visit resource w)))
   <= length (evaluated (events_of (visit resource w))) <= 1)%nat.
Proof.
  rewrite visit_is_outcome. unfold visit_outcome, events_of.
  destruct (named (self w) resource) as [attribute|]; simpl; [|lia].
  destruct (EvaluateExpr (hclext.Expr attribute) (host w)) as [[value| |e] h1];
    simpl; try lia.
  destruct (HasPrefix value (prefix (self w))); simpl; [lia|].
  destruct (EmitIssue _ _ _ h1) as [res h2]. simpl. lia.
Qed.

Lemma range_Blocks_counts blocks w :
  (length (emitted (events_of (range_Blocks blocks w)))
   <= length (evaluated (events_of (range_Blocks blocks w))) <= length blocks)%nat.
Proof.
  revert w. induction blocks as [|b bs IH]; intros w; [simpl; lia|].
  rewrite range_Blocks_cons.
  pose proof (visit_counts b w) as Hb. pose proof (IH (world_of (visit b w))) as Hbs.
  destruct (visit b w) as [[[e|] w1] t1]; unfold world_of, events_of in *; simpl in *;
    [lia|].
  destruct (range_Blocks bs w1) as [[res2 w2] t2]. simpl in *.
  rewrite emitted_app, evaluated_app, !length_app. lia.
Qed.

(** X7: [Check] emits at most one issue per evaluation and makes at most
    one evaluation per returned block, whatever the host answers. *)
Theorem at_most_one_issue_per_block w content h0 :
  GetResourceContent (resourceType (self w)) (query_schema (self w)) (host w)
    = (inr content, h0) ->
  (length (emitted (events_of (Check w)))
   <= length (evaluated (events_of (Check w)))
   <= length (hclext.Blocks content))%nat.
Proof.
  intros Hq. rewrite (Check_query_ok _ _ _ Hq).
  pose proof (range_Blocks_counts (hclext.Blocks content) (mkWorld (self w) h0)) as Hc.
  destruct (range_Blocks _ _) as [[res w1] t]. exact Hc.
Qed.

Lemma visit_error resource w e :
  result_of (visit resource w) = Some e ->
  exists attribute calls,
    named (self w) resource = Some attribute
    /\ host_failure (self w) attribute (host w) e (host (world_of (visit resource w))) calls.
Proof.
  rewrite visit_is_outcome. unfold visit_outcome, result_of, world_of.
  destruct (named (self w) resource) as [attribute|]; simpl; [|discriminate].
  destruct (EvaluateExpr (hclext.Expr attribute) (host w)) as [[value| |e'] h1] eqn:Hev;
    simpl; try discriminate.
  - destruct (HasPrefix value (prefix (self w))) eqn:Hp; simpl; [discriminate|].
    destruct (EmitIssue _ _ _ h1) as [res h2] eqn:Hem. simpl. intros ->.
    eexists _, _. split; [reflexivity|].
    now apply emission_fails with (value := value) (h1 := h1).
  - intros [= ->]. eexists _, _. split; [reflexivity|]. now apply evaluation_fails.
Qed.

Lemma range_Blocks_error blocks w e :
  result_of (range_Blocks blocks w) = Some e ->
  exists before resource after w1 t1 attribute h2 calls,
    blocks = (before ++ resource :: after)%list
    /\ range_Blocks before w = (None, w1, t1)
    /\ named (self w) resource = Some attribute
    /\ host_failure (self w) attribute (host w1) e h2 calls.
Proof.
  revert w. induction blocks as [|b bs IH]; intros w; [discriminate|].
  rewrite range_Blocks_cons.
  pose proof (visit_error b w e) as Hb. pose proof (visit_self b w) as Hs.
  destruct (visit b w) as [[[e1|] w1] t1] eqn:Hv;
    unfold result_of, world_of in *; simpl in *.
  - intros [= ->]. destruct (Hb eq_refl) as (attribute & calls & Hat & Hfail).
    exists [], b, bs, w, [], attribute, (host w1), calls. now repeat split.
  - specialize (IH w1).
    destruct (range_Blocks bs w1) as [[res2 w2] t2] eqn:Hr. simpl in *. intros ->.
    destruct (IH eq_refl)
      as (before & resource & after & w3 & t3 & attribute & h2 & calls
          & -> & Hbefore & Hat & Hfail).
    exists (b :: before), resource, after, w3, (t1 ++ t3)%list, attribute, h2, calls.
    rewrite Hs in *. repeat split; [| exact Hat | exact Hfail].
    now rewrite range_Blocks_cons, Hv, Hbefore.
Qed.

(** X8: [Check] returns no error of its own: an error it returns is the
    error of the failed query, or the error of a failed evaluation or
    emission at a block that sets the attribute and before which no block
    raised an error. *)
Theorem Check_error_comes_from_host w e :
  result_of (Check w) = Some e ->
  (exists h0,
      GetResourceContent (resourceType (self w)) (query_schema (self w)) (host w)
      = (inl e, h0))
  \/ (exists content h0 before resource after w1 t1 attribute h2 calls,
        GetResourceContent (resourceType (self w)) (query_schema (self w)) (host w)
        = (inr content, h0)
        /\ hclext.Blocks content = (before ++ resource :: after)%list
        /\ range_Blocks before (mkWorld (self w) h0) = (None, w1, t1)
        /\ hclext.Attributes (hclext.Body resource) !! attributeName (self w)
           = Some attribute
        /\ host_failure (self w) attribute (host w1) e h2 calls).
Proof.
  rewrite Check_by_query.
  destruct (GetResourceContent _ _ (host w)) as [[e0|content] h0].
  - intros [= ->]. left. now exists h0.
  - pose proof (range_Blocks_error (hclext.Blocks content) (mkWorld (self w) h0) e) as Hr.
    destruct (range_Blocks _ _) as [[res w1] t]. unfold result_of in *. simpl in *.
    intros ->. right.
    destruct (Hr eq_refl)
      as (before & resource & after & w3 & t3 & attribute & h2 & calls
          & Hb & Hbefore & Hat & Hfail).
    exists content, h0, before, resource, after, w3, t3, attribute, h2, calls.
    now repeat split.
Qed.

End Origins.

(** ** Blocks the rule passes over, and what it reads of a block *)

Section Passing.
Context {Expression error H : Type} `{!Runner Expression error H}.

Implicit Types (w : World H) (resource : hclext.Block Expression)
  (blocks before after : list (hclext.Block Expression))
  (attribute : hclext.Attribute Expression) (t : list (Event Expression)).

(** X9: a block whose value the host does not hand to the callback (it
    returns [nil] from the evaluation without a value) is evaluated and
    passed over: no issue, no error, and [Check] goes on with the later
    blocks. *)
Theorem unresolved_block_is_passed_over
  w content h0 before resource after w1 t1 attribute h1 :
  GetResourceContent (resourceType (self w)) (query_schema (self w)) (host w)
    = (inr content, h0) ->
  hclext.Blocks content = (before ++ resource :: after)%list ->
  range_Blocks before (mkWorld (self w) h0) = (None, w1, t1) ->
  hclext.Attributes (hclext.Body resource) !! attributeName (self w) = Some attribute ->
  EvaluateExpr (hclext.Expr attribute) (host w1) = (Skipped, h1) ->
  let calls := [EvEvaluateExpr (hclext.Expr attribute)] in
  visit resource w1 = (None, mkWorld (self w) h1, calls)
  /\ Check w =
       let '(res3, w3, t3) := range_Blocks after (mkWorld (self w) h1) in
       (res3, w3, (opening (self w) ++ t1 ++ calls ++ t3)%list).
Proof.
  intros Hq Hb Hbefore Hat Hev calls.
  pose proof (range_Blocks_self before (mkWorld (self w) h0)) as Hs.
  rewrite Hbefore in Hs. unfold world_of in Hs. simpl in Hs.
  assert (Hv : visit resource w1 = (None, mkWorld (self w) h1, calls)).
  { pose proof (visit_skipped w1 resource attribute h1) as Hv.
    rewrite Hs in Hv. now apply Hv. }
  split; [exact Hv|].
  now rewrite (Check_at_block _ _ _ _ _ _ _ _ Hq Hb Hbefore), Hv.
Qed.

(** X10: when none of the returned blocks sets the attribute, the empty
    list of blocks included, [Check] returns [nil] having made no call
    after the query. *)
Theorem no_attribute_no_call w content h0 :
  GetResourceContent (resourceType (self w)) (query_schema (self w)) (host w)
    = (inr content, h0) ->
  Forall (fun resource =>
            hclext.Attributes (hclext.Body resource) !! attributeName (self w) = None)
    (hclext.Blocks content) ->
  Check w = (None, mkWorld (self w) h0, opening (self w)).
Proof.
  intros Hq Hall. rewrite (Check_query_ok _ _ _ Hq).
  assert (Hr : forall w', self w' = self w ->
                 range_Blocks (hclext.Blocks content) w' = (None, w', [])).
  { induction Hall as [|b bs Hb _ IH]; intros w' Hw; [reflexivity|].
    rewrite range_Blocks_cons, visit_absent by now rewrite Hw.
    now rewrite (IH w' Hw). }
  now rewrite (Hr (mkWorld (self w) h0) eq_refl).
Qed.

(** X11: the loop reads nothing of a block but the entry of the rule's
    attribute: two lists of blocks that agree, block by block, on that
    entry are processed alike, whatever their types, labels, other
    attributes and nested blocks. *)
Theorem loop_reads_only_the_attribute blocks blocks' w :
  Forall2 (fun resource resource' =>
             hclext.Attributes (hclext.Body resource) !! attributeName (self w)
             = hclext.Attributes (hclext.Body resource') !! attributeName (self w))
    blocks blocks' ->
  range_Blocks blocks w = range_Blocks blocks' w.
Proof.
  intros Hall.
  assert (Hr : forall w', self w' = self w ->
                 range_Blocks blocks w' = range_Blocks blocks' w').
  { induction Hall as [|b b' bs bs' Hb _ IH]; intros w' Hw; [reflexivity|].
    rewrite !range_Blocks_cons.
    assert (Hv : visit b w' = visit b' w').
    { unfold visit, bind, field. simpl. now rewrite Hw, Hb. }
    rewrite Hv. pose proof (visit_self b' w') as Hs.
    destruct (visit b' w') as [[[e|] w1] t1]; [reflexivity|].
    unfold world_of in Hs. simpl in Hs. rewrite IH by congruence. reflexivity. }
  now apply Hr.
Qed.

(** X12: with fixed host responses [n] runs of [Check] in a row make the
    calls of one run [n] times over and return its result [n] times. *)
Theorem Check_times_repeats (n : nat) w :
  fixed_responses ->
  events_of (Check_times n w) = concat (replicate n (events_of (Check w)))
  /\ result_of (Check_times n w) = replicate n (result_of (Check w)).
Proof.
  intros Hfix. revert w. induction n as [|n IH]; intros w; [now split|].
  rewrite Check_times_succ.
  pose proof (Check_self w) as Hs.
  destruct (Check_fixed (world_of (Check w)) w Hfix Hs) as [Hr Ht].
  destruct (IH (world_of (Check w))) as [IHt IHr].
  rewrite Ht in IHt. rewrite Hr in IHr.
  destruct (Check w) as [[res w1] t1]. unfold world_of, events_of, result_of in *.
  simpl in *. destruct (Check_times n w1) as [[more w2] t2]. simpl in *.
  now subst.
Qed.

End Passing.

(** ** The further properties at work on the example host *)

Lemma Check_evaluates_in_order_witness :
  (exists rest,
      expressions_of NewOktaGroupNamePrefixRule [Mock.g1; Mock.g2; Mock.g3; Mock.g5; Mock.g6]
      = (evaluated
           (events_of
              (Check (Runner0 := Mock.runner
                                   (Mock.serving [Mock.g1; Mock.g2; Mock.g3; Mock.g5; Mock.g6]))
                 Mock.start)) ++ rest)%list)
  /\ (result_of
        (Check (Runner0 := Mock.runner
                             (Mock.serving [Mock.g1; Mock.g2; Mock.g3; Mock.g5; Mock.g6]))
           Mock.start) = None ->
      evaluated
        (events_of
           (Check (Runner0 := Mock.runner
                                (Mock.serving [Mock.g1; Mock.g2; Mock.g3; Mock.g5; Mock.g6]))
              Mock.start))
      = expressions_of NewOktaGroupNamePrefixRule
          [Mock.g1; Mock.g2; Mock.g3; Mock.g5; Mock.g6]).
Proof.
  apply (Check_evaluates_in_order
           (Runner0 := Mock.runner (Mock.serving [Mock.g1; Mock.g2; Mock.g3; Mock.g5; Mock.g6]))
           Mock.start (Mock.content [Mock.g1; Mock.g2; Mock.g3; Mock.g5; Mock.g6]) []).
  reflexivity.
Defined.

Lemma Check_emits_the_violations_witness :
  (exists rest,
      violations NewOktaGroupNamePrefixRule Mock.value_of
        [Mock.g1; Mock.g2; Mock.g3; Mock.g5; Mock.g6]
      = (emitted
           (events_of
              (Check (Runner0 := Mock.runner
                                   (Mock.serving [Mock.g1; Mock.g2; Mock.g3; Mock.g5; Mock.g6]))
                 Mock.start)) ++ rest)%list)
  /\ (result_of
        (Check (Runner0 := Mock.runner
                             (Mock.serving [Mock.g1; Mock.g2; Mock.g3; Mock.g5; Mock.g6]))
           Mock.start) = None ->
      emitted
        (events_of
           (Check (Runner0 := Mock.runner
                                (Mock.serving [Mock.g1; Mock.g2; Mock.g3; Mock.g5; Mock.g6]))
              Mock.start))
      = violations NewOktaGroupNamePrefixRule Mock.value_of
          [Mock.g1; Mock.g2; Mock.g3; Mock.g5; Mock.g6]).
Proof.
  apply (Check_emits_the_violations
           (Runner0 := Mock.runner (Mock.serving [Mock.g1; Mock.g2; Mock.g3; Mock.g5; Mock.g6]))
           Mock.value_of Mock.start
           (Mock.content [Mock.g1; Mock.g2; Mock.g3; Mock.g5; Mock.g6]) []).
  - intros e h. reflexivity.
  - reflexivity.
Defined.

Lemma issues_point_at_returned_attributes_witness :
  Forall (fun issue =>
            issue.1.1 = NewOktaGroupNamePrefixRule
            /\ issue.1.2 = "Okta group name must start with '" +:+ "terraform-" +:+ "'"
            /\ exists resource attribute,
                resource ∈ [Mock.g1; Mock.g2; Mock.g6]
                /\ hclext.Attributes (hclext.Body resource) !! "name" = Some attribute
                /\ issue.2 = hclext.Range attribute)
    (emitted
       (events_of
          (Check (Runner0 := Mock.runner (Mock.serving [Mock.g1; Mock.g2; Mock.g6]))
             Mock.start))).
Proof.
  apply (issues_point_at_returned_attributes
           (Runner0 := Mock.runner (Mock.serving [Mock.g1; Mock.g2; Mock.g6]))
           Mock.start (Mock.content [Mock.g1; Mock.g2; Mock.g6]) []).
  reflexivity.
Defined.

Lemma at_most_one_issue_per_block_witness :
  (length (emitted
             (events_of
                (Check (Runner0 := Mock.runner (Mock.serving [Mock.g1; Mock.g2; Mock.g3]))
                   Mock.start)))
   <= length (evaluated
                (events_of
                   (Check (Runner0 := Mock.runner (Mock.serving [Mock.g1; Mock.g2; Mock.g3]))
                      Mock.start)))
   <= length [Mock.g1; Mock.g2; Mock.g3])%nat.
Proof.
  apply (at_most_one_issue_per_block
           (Runner0 := Mock.runner (Mock.serving [Mock.g1; Mock.g2; Mock.g3]))
           Mock.start (Mock.content [Mock.g1; Mock.g2; Mock.g3]) []).
  reflexivity.
Defined.

Lemma Check_error_comes_from_host_witness :
  (exists h0,
      GetResourceContent (Runner := Mock.runner (Mock.closed [Mock.g1; Mock.g2]))
        "okta_group" (query_schema NewOktaGroupNamePrefixRule) []
      = (inl "reporting channel closed", h0))
  \/ (exists content h0 before resource after w1 t1 attribute h2 calls,
        GetResourceContent (Runner := Mock.runner (Mock.closed [Mock.g1; Mock.g2]))
          "okta_group" (query_schema NewOktaGroupNamePrefixRule) []
        = (inr content, h0)
        /\ hclext.Blocks content = (before ++ resource :: after)%list
        /\ range_Blocks (Runner0 := Mock.runner (Mock.closed [Mock.g1; Mock.g2]))
             before (mkWorld NewOktaGroupNamePrefixRule h0) = (None, w1, t1)
        /\ hclext.Attributes (hclext.Body resource) !! "name" = Some attribute
        /\ host_failure (Runner0 := Mock.runner (Mock.closed [Mock.g1; Mock.g2]))
             NewOktaGroupNamePrefixRule attribute (host w1)
             "reporting channel closed" h2 calls).
Proof.
  apply (Check_error_comes_from_host
           (Runner0 := Mock.runner (Mock.closed [Mock.g1; Mock.g2]))
           Mock.start "reporting channel closed").
  reflexivity.
Defined.

Lemma unresolved_block_is_passed_over_witness :
  visit (Runner0 := Mock.runner (Mock.serving [Mock.g1; Mock.g5; Mock.g2]))
    Mock.g5 Mock.start
  = (None, Mock.start, [EvEvaluateExpr Mock.Unknown])
  /\ Check (Runner0 := Mock.runner (Mock.serving [Mock.g1; Mock.g5; Mock.g2])) Mock.start
     = (None, Mock.reported 1,
        (opening NewOktaGroupNamePrefixRule ++ Mock.seen_g1
         ++ [EvEvaluateExpr Mock.Unknown] ++ Mock.seen_g2)%list).
Proof.
  apply (unresolved_block_is_passed_over
           (Runner0 := Mock.runner (Mock.serving [Mock.g1; Mock.g5; Mock.g2]))
           Mock.start (Mock.content [Mock.g1; Mock.g5; Mock.g2]) []
           [Mock.g1] Mock.g5 [Mock.g2] Mock.start Mock.seen_g1
           (Mock.name_is Mock.Unknown 18) []);
    reflexivity.
Defined.

Lemma no_attribute_no_call_witness :
  Check (Runner0 := Mock.runner (Mock.serving [Mock.g3; Mock.unnamed "g7" 30])) Mock.start
  = (None, Mock.start, opening NewOktaGroupNamePrefixRule).
Proof.
  apply (no_attribute_no_call
           (Runner0 := Mock.runner (Mock.serving [Mock.g3; Mock.unnamed "g7" 30]))
           Mock.start (Mock.content [Mock.g3; Mock.unnamed "g7" 30]) []).
  - reflexivity.
  - repeat constructor.
Defined.

Lemma loop_reads_only_the_attribute_witness :
  range_Blocks (Runner0 := Mock.runner (Mock.serving [])) [Mock.g1; Mock.g2] Mock.start
  = range_Blocks (Runner0 := Mock.runner (Mock.serving [])) [Mock.g1; Mock.g2_moved]
      Mock.start.
Proof.
  apply (loop_reads_only_the_attribute (Runner0 := Mock.runner (Mock.serving []))
           [Mock.g1; Mock.g2] [Mock.g1; Mock.g2_moved] Mock.start).
  repeat constructor.
Defined.

Lemma Check_times_repeats_witness :
  events_of (Check_times (Runner0 := Mock.runner (Mock.serving [Mock.g1; Mock.g2])) 3
               Mock.start)
  = concat (replicate 3
              (events_of
                 (Check (Runner0 := Mock.runner (Mock.serving [Mock.g1; Mock.g2]))
                    Mock.start)))
  /\ result_of (Check_times (Runner0 := Mock.runner (Mock.serving [Mock.g1; Mock.g2])) 3
                  Mock.start)
     = replicate 3
         (result_of
            (Check (Runner0 := Mock.runner (Mock.serving [Mock.g1; Mock.g2])) Mock.start)).
Proof.
  apply (Check_times_repeats (Runner0 := Mock.runner (Mock.serving [Mock.g1; Mock.g2]))
           3 Mock.start).
  repeat split; intros; reflexivity.
Defined.
